(** * Inboxly front-end shell: theme state, session state and route guard

    A shallow embedding of [frontend/src/App.jsx].  The browser objects the
    component touches ([localStorage], the class list of the document
    element, the console, the network) are explicit state; React hook state
    is a record updated by the setters, and is read once the synchronous
    run that called the setters is over (React commits the updates of one
    run together); the [async] function [checkAuthStatus] is cut at its
    two [await]s into the segments the engine resumes one after the
    other. *)

From Stdlib Require Import ZArith List Bool.
From stdpp Require Import gmap strings.
Import ListNotations.

Local Open Scope string_scope.
Local Set Warnings "-register-all".

(** ** JavaScript values *)

Module Js.

(** The values a user record can be: whatever [response.json()] yields,
    or whatever a caller hands to [login] (which may be [undefined] when
    the argument is left out).  The component stores them and never
    looks inside, so numbers are kept as integers here. *)
Inductive Value : Type :=
| Undefined
| Null
| Bool (b : bool)
| Number (n : Z)
| String (s : string)
| Array (items : list Value)
| Object (fields : list (string * Value)).

(** A value is present when it is neither [null] nor [undefined]. *)
Definition present (v : Value) : bool :=
  match v with
  | Undefined | Null => false
  | _ => true
  end.

(** An exception value: [name] is "TypeError", "SyntaxError", ... *)
Record Error : Type := mkError { name : string; message : string }.

(** Truthiness of the result of [localStorage.getItem]: [null] and the
    empty string are falsy, every other string is truthy. *)
Definition truthy (v : option string) : bool :=
  match v with
  | None => false
  | Some EmptyString => false
  | Some _ => true
  end.

(** [a === b] where [a] is [string | null] and [b] a string literal. *)
Definition strictEq (a : option string) (b : string) : bool :=
  match a with
  | None => false
  | Some s => String.eqb s b
  end.

(** How a promise settles. *)
Inductive Settled (A : Type) : Type :=
| Fulfilled (a : A)
| Rejected (e : Error).
Arguments Fulfilled {A} a.
Arguments Rejected {A} e.

End Js.

(** ** The browser *)

(** A request as [fetch] is called here: the URL and the one header. *)
Record Request : Type := mkRequest {
  url : string;
  authorization : string
}.

(** A response: [ok] is true for a status in 200..299; [json] is what
    [response.json()] settles to, a parsed value or the parse error. *)
Record Response : Type := mkResponse {
  ok : bool;
  json : Js.Error + Js.Value
}.

(** The network, as the page sees it. *)
Definition Fetch : Type := Request -> Js.Settled Response.

Inductive NetEvent : Type :=
| Sent (req : Request)
| Replied (s : Js.Settled Response).

Record Browser : Type := mkBrowser {
  localStorage : gmap string string;
  darkClass : bool;                        (* "dark" in documentElement.classList *)
  console : list (string * Js.Error);      (* console.error(label, error) *)
  network : list NetEvent
}.

(** ** React state *)

Record AuthState : Type := mkAuth {
  isAuthenticated : bool;
  user : Js.Value;
  loading : bool
}.

Inductive SetterCall : Type :=
| SetIsAuthenticated (b : bool)
| SetUser (v : Js.Value)
| SetLoading (b : bool)
| SetIsDark (b : bool).

(** Where [checkAuthStatus] stands: not suspended, suspended at
    [await fetch(...)], or suspended at [await response.json()]. *)
Inductive Phase : Type :=
| NotPending
| AwaitingFetch (req : Request)
| AwaitingJson (resp : Response).

Record World : Type := mkWorld {
  browser : Browser;
  auth : AuthState;
  isDark : bool;
  calls : list SetterCall;
  phase : Phase
}.

Definition tokenKey : string := "inboxly-token".
Definition themeKey : string := "inboxly-theme".

Definition withBrowser (f : Browser -> Browser) (w : World) : World :=
  mkWorld (f (browser w)) (auth w) (isDark w) (calls w) (phase w).

Definition withPhase (p : Phase) (w : World) : World :=
  mkWorld (browser w) (auth w) (isDark w) (calls w) p.

Definition getItem (key : string) (w : World) : option string :=
  localStorage (browser w) !! key.

Definition setItem (key value : string) : World -> World :=
  withBrowser (fun b =>
    mkBrowser (<[key := value]> (localStorage b)) (darkClass b) (console b) (network b)).

Definition removeItem (key : string) : World -> World :=
  withBrowser (fun b =>
    mkBrowser (delete key (localStorage b)) (darkClass b) (console b) (network b)).

(** [document.documentElement.classList.toggle("dark", force)] *)
Definition classListToggleDark (force : bool) : World -> World :=
  withBrowser (fun b =>
    mkBrowser (localStorage b) force (console b) (network b)).

Definition consoleError (label : string) (e : Js.Error) : World -> World :=
  withBrowser (fun b =>
    mkBrowser (localStorage b) (darkClass b) (console b ++ [(label, e)]) (network b)).

Definition netLog (ev : NetEvent) : World -> World :=
  withBrowser (fun b =>
    mkBrowser (localStorage b) (darkClass b) (console b) (network b ++ [ev])).

Definition setIsAuthenticated (v : bool) (w : World) : World :=
  mkWorld (browser w) (mkAuth v (user (auth w)) (loading (auth w)))
          (isDark w) (calls w ++ [SetIsAuthenticated v]) (phase w).

Definition setUser (v : Js.Value) (w : World) : World :=
  mkWorld (browser w) (mkAuth (isAuthenticated (auth w)) v (loading (auth w)))
          (isDark w) (calls w ++ [SetUser v]) (phase w).

Definition setLoading (v : bool) (w : World) : World :=
  mkWorld (browser w) (mkAuth (isAuthenticated (auth w)) (user (auth w)) v)
          (isDark w) (calls w ++ [SetLoading v]) (phase w).

Definition setIsDark (v : bool) (w : World) : World :=
  mkWorld (browser w) (auth w) v (calls w ++ [SetIsDark v]) (phase w).

(** The page as the first render leaves it: hook state at the [useState]
    defaults, nothing logged, nothing sent. *)
Definition pageLoad (storage : gmap string string) (cls : bool) : World :=
  mkWorld (mkBrowser storage cls [] [])
          (mkAuth false Js.Null true)     (* useState(false), (null), (true) *)
          true                            (* useState(true) *)
          [] NotPending.

(** ** Theme provider *)

(** First effect of [ThemeProvider] (dependencies [[]]): read the saved
    theme and queue the matching update. *)
Definition themeLoadEffect (w : World) : World :=
  let savedTheme := getItem themeKey w in
  if Js.strictEq savedTheme "light" then setIsDark false w
  else if Js.strictEq savedTheme "dark" then setIsDark true w
  else w.

(** Second effect (dependencies [[isDark]]); [rendered] is the value of
    [isDark] in the render whose effect this is. *)
Definition themeSyncEffect (rendered : bool) (w : World) : World :=
  setItem themeKey (if rendered then "dark" else "light")
          (classListToggleDark rendered w).

(** React renders again when the queued state differs from the rendered
    one, and then runs the effects whose dependencies changed. *)
Definition rerenderTheme (rendered : bool) (w : World) : World :=
  if Bool.eqb rendered (isDark w) then w
  else themeSyncEffect (isDark w) w.

(** Mount: both effects run for the first render, where [isDark] is the
    [useState] default [true]; then the queued update is committed. *)
Definition ThemeProvider_mount (w : World) : World :=
  let rendered := true in
  rerenderTheme rendered (themeSyncEffect rendered (themeLoadEffect w)).

(** [setIsDark(prev => !prev)], then the commit. *)
Definition toggleTheme (w : World) : World :=
  let rendered := isDark w in
  rerenderTheme rendered (setIsDark (negb (isDark w)) w).

(** ** Auth provider *)

Definition verifyRequest (token : string) : Request :=
  mkRequest "/api/auth/verify" ("Bearer " ++ token).

(** The [catch] and [finally] blocks of [checkAuthStatus]. *)
Definition catchBlock (error : Js.Error) (w : World) : World :=
  consoleError "Auth check failed:" error w.

Definition finallyBlock (w : World) : World :=
  withPhase NotPending (setLoading false w).

(** [checkAuthStatus] up to its first [await] (or to its end when the
    token is falsy). *)
Definition checkAuthStatus_start (w : World) : World :=
  match getItem tokenKey w with
  | Some token =>
      if Js.truthy (Some token) then
        let req := verifyRequest token in
        withPhase (AwaitingFetch req) (netLog (Sent req) w)
      else finallyBlock w
  | None => finallyBlock w
  end.

(** Resumption after [await fetch(...)]. *)
Definition checkAuthStatus_fetched (s : Js.Settled Response) (w : World) : World :=
  let w := netLog (Replied s) w in
  match s with
  | Js.Rejected error => finallyBlock (catchBlock error w)
  | Js.Fulfilled response =>
      if ok response then withPhase (AwaitingJson response) w
      else finallyBlock (removeItem tokenKey w)
  end.

(** Resumption after [await response.json()]. *)
Definition checkAuthStatus_parsed (r : Js.Error + Js.Value) (w : World) : World :=
  match r with
  | inl error => finallyBlock (catchBlock error w)
  | inr userData => finallyBlock (setUser userData (setIsAuthenticated true w))
  end.

(** Whatever is pending settles, with nothing else run in between. *)
Definition settle (fetch : Fetch) (w : World) : World :=
  match phase w with
  | NotPending => w
  | AwaitingJson response => checkAuthStatus_parsed (json response) w
  | AwaitingFetch req =>
      let w := checkAuthStatus_fetched (fetch req) w in
      match phase w with
      | AwaitingJson response => checkAuthStatus_parsed (json response) w
      | _ => w
      end
  end.

(** The whole of [checkAuthStatus], run to its end. *)
Definition checkAuthStatus (fetch : Fetch) (w : World) : World :=
  settle fetch (checkAuthStatus_start w).

Definition login (token : string) (userData : Js.Value) (w : World) : World :=
  setUser userData (setIsAuthenticated true (setItem tokenKey token w)).

Definition logout (w : World) : World :=
  setUser Js.Null (setIsAuthenticated false (removeItem tokenKey w)).

(** ** Mounting the application *)

(** Effects run children first: the effect of [AuthProvider] runs up to
    its first [await], then the two effects of [ThemeProvider]. *)
Definition App_mount (storage : gmap string string) (cls : bool) : World :=
  ThemeProvider_mount (checkAuthStatus_start (pageLoad storage cls)).

(** The mount with the verification, if any, run to its end under the
    network [fetch] and nothing else happening meanwhile. *)
Definition App_mounted (fetch : Fetch) (storage : gmap string string) (cls : bool) : World :=
  settle fetch (App_mount storage cls).

(** ** Route guard *)

(** The context a consumer finds: [None] outside a provider (the default
    of [createContext()] is [undefined]), the provider's value inside. *)
Definition AuthProvider_value (w : World) : option AuthState := Some (auth w).

Definition useAuth (context : option AuthState) : Js.Error + AuthState :=
  match context with
  | None => inl (Js.mkError "Error" "useAuth must be used within an AuthProvider")
  | Some c => inr c
  end.

(** What [ProtectedRoute] returns. *)
Inductive Element (Node : Type) : Type :=
| Spinner
| Children (children : Node)
| Navigate (to : string) (replace : bool).
Arguments Spinner {Node}.
Arguments Children {Node} children.
Arguments Navigate {Node} to replace.

Definition ProtectedRoute {Node : Type} (context : option AuthState) (children : Node)
  : Js.Error + Element Node :=
  match useAuth context with
  | inl e => inl e
  | inr c =>
      if loading c then inr Spinner
      else inr (if isAuthenticated c then Children children else Navigate "/auth" true)
  end.

(** ** What can happen after the mount *)

Inductive Event : Type :=
| Login (token : string) (userData : Js.Value)
| Logout
| ToggleTheme
| FetchSettles (s : Js.Settled Response)
| JsonSettles.

(** One event; [None] when nothing is suspended where the event would
    resume it. *)
Definition step (e : Event) (w : World) : option World :=
  match e with
  | Login token userData => Some (login token userData w)
  | Logout => Some (logout w)
  | ToggleTheme => Some (toggleTheme w)
  | FetchSettles s =>
      match phase w with
      | AwaitingFetch _ => Some (checkAuthStatus_fetched s w)
      | _ => None
      end
  | JsonSettles =>
      match phase w with
      | AwaitingJson response => Some (checkAuthStatus_parsed (json response) w)
      | _ => None
      end
  end.

(** The states reached from a mount by events that [allowed] admits. *)
Inductive reachable (allowed : Event -> bool) : World -> Prop :=
| reach_mount storage cls : reachable allowed (App_mount storage cls)
| reach_step w e w' :
    reachable allowed w -> allowed e = true -> step e w = Some w' ->
    reachable allowed w'.

Definition anyEvent (e : Event) : bool := true.

(** The event hands the component a user record that is present: the
    [userData] of a [login], the body of a successful verification. *)
Definition suppliesUser (e : Event) : bool :=
  match e with
  | Login _ userData => Js.present userData
  | FetchSettles (Js.Fulfilled response) =>
      if ok response then
        match json response with
        | inr body => Js.present body
        | inl _ => true
        end
      else true
  | _ => true
  end.

(** ** Observations *)

Definition requests (w : World) : list Request :=
  omap (fun ev => match ev with Sent req => Some req | _ => None end)
       (network (browser w)).

Definition replies (w : World) : list (Js.Settled Response) :=
  omap (fun ev => match ev with Replied s => Some s | _ => None end)
       (network (browser w)).

(** The error of a verification that failed below the status: [fetch]
    rejected, or the status was a success and [response.json()] rejected. *)
Definition failure (s : Js.Settled Response) : option Js.Error :=
  match s with
  | Js.Rejected e => Some e
  | Js.Fulfilled response =>
      if ok response then
        match json response with
        | inl e => Some e
        | inr _ => None
        end
      else None
  end.

Definition timesSetLoading (v : bool) (cs : list SetterCall) : nat :=
  length (List.filter (fun c => match c with
                                | SetLoading b => Bool.eqb b v
                                | _ => false
                                end) cs).

Definition themeString (dark : bool) : string := if dark then "dark" else "light".

(** ** Specifications of the frames and of the mount *)

(** What the theme provider leaves alone. *)
Record themeFrame (w w' : World) : Prop := mkThemeFrame {
  frame_auth : auth w' = auth w;
  frame_phase : phase w' = phase w;
  frame_network : network (browser w') = network (browser w);
  frame_console : console (browser w') = console (browser w);
  frame_token : getItem tokenKey w' = getItem tokenKey w;
  frame_setLoading : forall v, timesSetLoading v (calls w') = timesSetLoading v (calls w)
}.

(** The two ways the synchronous part of the mount can end: nothing sent
    and [loading] already cleared, or one request in flight. *)
Inductive mountCase (storage : gmap string string) (w : World) : Prop :=
| mount_idle :
    Js.truthy (storage !! tokenKey) = false ->
    phase w = NotPending ->
    auth w = mkAuth false Js.Null false ->
    network (browser w) = [] ->
    console (browser w) = [] ->
    getItem tokenKey w = storage !! tokenKey ->
    timesSetLoading false (calls w) = 1 ->
    mountCase storage w
| mount_waiting token :
    storage !! tokenKey = Some token ->
    Js.truthy (Some token) = true ->
    phase w = AwaitingFetch (verifyRequest token) ->
    auth w = mkAuth false Js.Null true ->
    network (browser w) = [Sent (verifyRequest token)] ->
    console (browser w) = [] ->
    getItem tokenKey w = Some token ->
    timesSetLoading false (calls w) = 0 ->
    mountCase storage w.

(** An authenticated session has a user, and so will the session that a
    suspended [response.json()] is about to set. *)
Definition userInvariant (w : World) : Prop :=
  (isAuthenticated (auth w) = true -> Js.present (user (auth w)) = true) /\
  (forall response body,
     phase w = AwaitingJson response -> json response = inr body ->
     Js.present body = true).

(** ** Theme context and application shell *)

(** The value [ThemeProvider] hands down, an object (its [toggleTheme]
    member is the function above). *)
Record ThemeValue : Type := mkThemeValue { themeIsDark : bool }.

Definition ThemeProvider_value (w : World) : option ThemeValue :=
  Some (mkThemeValue (isDark w)).

Definition useTheme (context : option ThemeValue) : Js.Error + ThemeValue :=
  match context with
  | None => inl (Js.mkError "Error" "useTheme must be used within a ThemeProvider")
  | Some c => inr c
  end.

(** The entry of the [<Routes>] table that the router matched against the
    current location: "/", "/profile", "/auth", or the catch-all "*". *)
Inductive Route : Type :=
| RootRoute
| ProfileRoute
| AuthRoute
| AnyRoute.

Inductive Page : Type :=
| LandingPage
| Profile
| Auth
| PageNotFound (className : string).

(** What [AppContent] returns: the welcome screen alone, or the page body
    (navigation bar and routed element) in a [div] of class [className]. *)
Inductive Screen : Type :=
| WelcomeScreen
| Body (className : string) (routed : Element Page).

(** [AppContent]; [started] is its [useState(false)] flag.  Both hooks
    are called before the flag is looked at; the element of a route is
    rendered only when that route is the one matched. *)
Definition AppContent (themeContext : option ThemeValue) (authContext : option AuthState)
    (started : bool) (route : Route) : Js.Error + Screen :=
  match useTheme themeContext with
  | inl e => inl e
  | inr theme =>
      if negb started then inr WelcomeScreen
      else
        let backgroundClass :=
          if themeIsDark theme then "bg-[#000000]" else "bg-[#E5E5E5]" in
        let className :=
          "min-h-screen transition-colors duration-300 " ++ backgroundClass in
        match route with
        | RootRoute => inr (Body className (Children LandingPage))
        | ProfileRoute =>
            match ProtectedRoute authContext Profile with
            | inl e => inl e
            | inr element => inr (Body className element)
            end
        | AuthRoute => inr (Body className (Children Auth))
        | AnyRoute =>
            inr (Body className
                   (Children (PageNotFound
                      ("text-center p-4 " ++
                       (if themeIsDark theme then "text-white" else "text-slate-900")))))
        end
  end.

(** [App]: [AppContent] inside both providers. *)
Definition App (w : World) (started : bool) (route : Route) : Js.Error + Screen :=
  AppContent (ThemeProvider_value w) (AuthProvider_value w) started route.

(** ** Runs of events, and what the session code leaves alone *)

Fixpoint run (events : list Event) (w : World) : option World :=
  match events with
  | [] => Some w
  | e :: rest =>
      match step e w with
      | Some w' => run rest w'
      | None => None
      end
  end.

(** What [checkAuthStatus], [login] and [logout] leave alone. *)
Record sessionFrame (w w' : World) : Prop := mkSessionFrame {
  frame_isDark : isDark w' = isDark w;
  frame_darkClass : darkClass (browser w') = darkClass (browser w);
  frame_other_keys : forall key, key <> tokenKey -> getItem key w' = getItem key w
}.

(** The stored theme and the class of the document element say what
    [isDark] says. *)
Definition themeSynced (w : World) : Prop :=
  getItem themeKey w = Some (themeString (isDark w)) /\
  darkClass (browser w) = isDark w.

(** [loading] is set exactly while the verification is suspended, and the
    setter log shows how it got there. *)
Definition loadingTracksPhase (w : World) : Prop :=
  (loading (auth w) = true <-> phase w <> NotPending) /\
  timesSetLoading true (calls w) = 0 /\
  timesSetLoading false (calls w) = (if loading (auth w) then 0 else 1).

(** ** Sample data *)

Definition userAl : Js.Value :=
  Js.Object [("id", Js.Number 1); ("name", Js.String "Al")].

Definition storedAbc : gmap string string := {[ tokenKey := "abc" ]}.

(** A network that gives every request the same answer. *)
Definition answering (s : Js.Settled Response) : Fetch := fun _ => s.

Definition reply200 : Js.Settled Response :=
  Js.Fulfilled (mkResponse true (inr userAl)).

Definition reply401 : Js.Settled Response :=
  Js.Fulfilled (mkResponse false (inr (Js.Object [("error", Js.String "Invalid token")]))).

Definition replyGarbled : Js.Settled Response :=
  Js.Fulfilled (mkResponse true (inl (Js.mkError "SyntaxError" "Unexpected token < in JSON"))).

Definition offline : Js.Settled Response :=
  Js.Rejected (Js.mkError "TypeError" "Failed to fetch").

(** * Properties *)

(** ** Storage keys and frames *)

Lemma themeKey_ne_tokenKey : themeKey <> tokenKey.
Proof. discriminate. Qed.

Lemma tokenKey_ne_themeKey : tokenKey <> themeKey.
Proof. discriminate. Qed.

Lemma getItem_setItem_eq key value w : getItem key (setItem key value w) = Some value.
Proof. unfold getItem, setItem; simpl. apply lookup_insert_eq. Qed.

Lemma getItem_setItem_ne key key' value w :
  key <> key' -> getItem key' (setItem key value w) = getItem key' w.
Proof. intros Hne. unfold getItem, setItem; simpl. by apply lookup_insert_ne. Qed.

Lemma getItem_removeItem_eq key w : getItem key (removeItem key w) = None.
Proof. unfold getItem, removeItem; simpl. apply lookup_delete_eq. Qed.

Lemma getItem_removeItem_ne key key' w :
  key <> key' -> getItem key' (removeItem key w) = getItem key' w.
Proof. intros Hne. unfold getItem, removeItem; simpl. by apply lookup_delete_ne. Qed.

Lemma timesSetLoading_app v cs cs' :
  timesSetLoading v (cs ++ cs') = timesSetLoading v cs + timesSetLoading v cs'.
Proof. unfold timesSetLoading. by rewrite List.filter_app, length_app. Qed.

Lemma themeFrame_refl w : themeFrame w w.
Proof. by split. Qed.

Lemma themeFrame_trans w1 w2 w3 : themeFrame w1 w2 -> themeFrame w2 w3 -> themeFrame w1 w3.
Proof.
  intros [] []. split; congruence.
Qed.

Lemma setIsDark_frame v w : themeFrame w (setIsDark v w).
Proof.
  split; try reflexivity.
  intros v'. simpl. rewrite timesSetLoading_app.
  change (timesSetLoading v' [SetIsDark v]) with 0. lia.
Qed.

Lemma themeSyncEffect_frame rendered w : themeFrame w (themeSyncEffect rendered w).
Proof.
  split; try reflexivity.
  unfold themeSyncEffect. rewrite getItem_setItem_ne by apply themeKey_ne_tokenKey.
  reflexivity.
Qed.

Lemma themeLoadEffect_frame w : themeFrame w (themeLoadEffect w).
Proof.
  unfold themeLoadEffect.
  repeat case_match; auto using setIsDark_frame, themeFrame_refl.
Qed.

Lemma rerenderTheme_frame rendered w : themeFrame w (rerenderTheme rendered w).
Proof.
  unfold rerenderTheme.
  case_match; auto using themeSyncEffect_frame, themeFrame_refl.
Qed.

Lemma ThemeProvider_mount_frame w : themeFrame w (ThemeProvider_mount w).
Proof.
  unfold ThemeProvider_mount.
  eapply themeFrame_trans; [apply themeLoadEffect_frame|].
  eapply themeFrame_trans; [apply themeSyncEffect_frame|].
  apply rerenderTheme_frame.
Qed.

Lemma toggleTheme_frame w : themeFrame w (toggleTheme w).
Proof.
  unfold toggleTheme.
  eapply themeFrame_trans; [apply setIsDark_frame | apply rerenderTheme_frame].
Qed.

(** ** The mount *)

Lemma checkAuthStatus_start_cases storage cls :
  mountCase storage (checkAuthStatus_start (pageLoad storage cls)).
Proof.
  unfold checkAuthStatus_start.
  change (getItem tokenKey (pageLoad storage cls)) with (storage !! tokenKey).
  destruct (storage !! tokenKey) as [token|] eqn:Htoken.
  - destruct (Js.truthy (Some token)) eqn:Htruthy.
    + by apply (mount_waiting _ _ token).
    + apply mount_idle; first [reflexivity | by rewrite Htoken].
  - apply mount_idle; first [reflexivity | by rewrite Htoken].
Qed.

Lemma App_mount_cases storage cls : mountCase storage (App_mount storage cls).
Proof.
  unfold App_mount.
  destruct (ThemeProvider_mount_frame (checkAuthStatus_start (pageLoad storage cls)))
    as [Ha Hp Hn Hc Ht Hl].
  destruct (checkAuthStatus_start_cases storage cls).
  - apply mount_idle; congruence.
  - eapply mount_waiting; eauto; congruence.
Qed.

(** With nothing suspended the mount is over as it stands. *)
Lemma settle_NotPending fetch w : phase w = NotPending -> settle fetch w = w.
Proof. intros Hp. unfold settle. by rewrite Hp. Qed.

(** With the request in flight, the answer of the network decides. *)
Lemma settle_AwaitingFetch fetch w req :
  phase w = AwaitingFetch req ->
  settle fetch w =
    let w1 := netLog (Replied (fetch req)) w in
    match fetch req with
    | Js.Rejected error => finallyBlock (catchBlock error w1)
    | Js.Fulfilled response =>
        if ok response then
          checkAuthStatus_parsed (json response) (withPhase (AwaitingJson response) w1)
        else finallyBlock (removeItem tokenKey w1)
    end.
Proof.
  intros Hp. unfold settle, checkAuthStatus_fetched. rewrite Hp.
  destruct (fetch req) as [response|error]; [|reflexivity].
  destruct (ok response); reflexivity.
Qed.

(** A request is sent exactly when the stored token is truthy, and the
    reply the mount receives is the network's answer to that request. *)
Lemma App_mounted_replies fetch storage cls :
  replies (App_mounted fetch storage cls) =
    match storage !! tokenKey with
    | Some token =>
        if Js.truthy (Some token) then [fetch (verifyRequest token)] else []
    | None => []
    end.
Proof.
  unfold App_mounted.
  destruct (App_mount_cases storage cls) as [Hf Hp Ha Hn Hc Ht Hl|token Hs Htr Hp Ha Hn Hc Ht Hl].
  - rewrite settle_NotPending by done. unfold replies. rewrite Hn.
    destruct (storage !! tokenKey); [by rewrite Hf | done].
  - rewrite (settle_AwaitingFetch _ _ _ Hp), Hs, Htr. cbv zeta.
    destruct (fetch (verifyRequest token)) as [response|error].
    + destruct (ok response); [destruct (json response)|];
        unfold replies; simpl; by rewrite Hn.
    + unfold replies; simpl; by rewrite Hn.
Qed.

(** X6. A stored empty string counts as no token: the mount sends no
    request, ends unauthenticated and leaves the empty string stored. *)
Lemma empty_token_sends_nothing fetch storage cls :
  storage !! tokenKey = Some "" ->
  requests (App_mounted fetch storage cls) = [] /\
  auth (App_mounted fetch storage cls) = mkAuth false Js.Null false /\
  getItem tokenKey (App_mounted fetch storage cls) = Some "".
Proof.
  intros Hs. unfold App_mounted.
  destruct (App_mount_cases storage cls) as [Hf Hp Ha Hn Hc Ht Hl|token Hs' Htr Hp Ha Hn Hc Ht Hl].
  - rewrite settle_NotPending by done. unfold requests. rewrite Hn, Ha, Ht. done.
  - rewrite Hs in Hs'. by injection Hs' as <-.
Qed.

(** The session the mount ends in is the one [checkAuthStatus] alone
    computes: the theme effects that run before the reply change nothing
    the verification reads or writes. *)
Lemma settle_frame_auth fetch w w' :
  themeFrame w w' -> auth (settle fetch w') = auth (settle fetch w).
Proof.
  intros [Ha Hp _ _ _ _]. unfold settle, checkAuthStatus_fetched. rewrite Hp.
  destruct (phase w) as [|req|response]; [exact Ha| |].
  - destruct (fetch req) as [response|error]; simpl; [|by rewrite Ha].
    destruct (ok response); simpl; [|by rewrite Ha].
    destruct (json response); simpl; by rewrite ?Ha.
  - destruct (json response); simpl; by rewrite ?Ha.
Qed.

Lemma App_mounted_auth fetch storage cls :
  auth (App_mounted fetch storage cls) = auth (checkAuthStatus fetch (pageLoad storage cls)).
Proof. apply settle_frame_auth, ThemeProvider_mount_frame. Qed.

(** A reply was received only if a truthy token was stored, and it is the
    network's answer to the request carrying that token. *)
Lemma App_mounted_reply_inv fetch storage cls s :
  replies (App_mounted fetch storage cls) = [s] ->
  exists token,
    storage !! tokenKey = Some token /\ Js.truthy (Some token) = true /\
    fetch (verifyRequest token) = s.
Proof.
  rewrite App_mounted_replies.
  destruct (storage !! tokenKey) as [token|]; [|discriminate].
  destruct (Js.truthy (Some token)) eqn:Htruthy; [|discriminate].
  intros [= <-]. by exists token.
Qed.

(** The mount once the reply [s] has come in. *)
Lemma App_mounted_replied fetch storage cls s :
  replies (App_mounted fetch storage cls) = [s] ->
  exists w token,
    mountCase storage w /\ phase w = AwaitingFetch (verifyRequest token) /\
    storage !! tokenKey = Some token /\
    App_mounted fetch storage cls =
      match s with
      | Js.Rejected error => finallyBlock (catchBlock error (netLog (Replied s) w))
      | Js.Fulfilled response =>
          if ok response then
            checkAuthStatus_parsed (json response)
              (withPhase (AwaitingJson response) (netLog (Replied s) w))
          else finallyBlock (removeItem tokenKey (netLog (Replied s) w))
      end.
Proof.
  intros Hr. destruct (App_mounted_reply_inv _ _ _ _ Hr) as (token & Hs & Htr & Hf).
  exists (App_mount storage cls), token.
  pose proof (App_mount_cases storage cls) as Hcase.
  assert (phase (App_mount storage cls) = AwaitingFetch (verifyRequest token)) as Hp.
  { destruct Hcase as [Hfalsy|token' Hs']; [by rewrite Hs, Htr in Hfalsy|].
    rewrite Hs in Hs'. by injection Hs' as <-. }
  repeat split; try assumption.
  unfold App_mounted. rewrite (settle_AwaitingFetch _ _ _ Hp), Hf. reflexivity.
Qed.

(** C1. A mount with a stored token whose verification is answered with a
    success status and a body that parses ends with [loading = false],
    [isAuthenticated = true] and [user] the parsed body. *)
Theorem mount_verified_sets_session fetch storage cls token response body :
  storage !! tokenKey = Some token ->
  replies (App_mounted fetch storage cls) = [Js.Fulfilled response] ->
  ok response = true ->
  json response = inr body ->
  auth (App_mounted fetch storage cls) = mkAuth true body false.
Proof.
  intros _ Hr Hok Hjson.
  destruct (App_mounted_replied _ _ _ _ Hr) as (w & token' & _ & _ & _ & ->).
  by rewrite Hok, Hjson.
Qed.

Lemma mount_verified_sets_session_witness :
  auth (App_mounted (answering reply200) storedAbc false) = mkAuth true userAl false.
Proof.
  apply (mount_verified_sets_session
           (answering reply200) storedAbc false "abc" (mkResponse true (inr userAl)));
    reflexivity.
Defined.

(** C2. A mount with a stored token whose verification is answered with a
    non-success status ends unauthenticated, with the token key deleted
    from the store (and [loading] cleared). *)
Theorem mount_rejected_deletes_token fetch storage cls token response :
  storage !! tokenKey = Some token ->
  replies (App_mounted fetch storage cls) = [Js.Fulfilled response] ->
  ok response = false ->
  isAuthenticated (auth (App_mounted fetch storage cls)) = false /\
  localStorage (browser (App_mounted fetch storage cls)) !! tokenKey = None /\
  loading (auth (App_mounted fetch storage cls)) = false.
Proof.
  intros _ Hr Hok.
  destruct (App_mounted_replied _ _ _ _ Hr) as (w & token' & Hcase & Hp & _ & ->).
  rewrite Hok. split; [|split].
  - destruct Hcase as [? ? Ha|? ? ? ? Ha]; simpl; by rewrite Ha.
  - apply (getItem_removeItem_eq tokenKey).
  - reflexivity.
Qed.

Lemma mount_rejected_deletes_token_witness :
  isAuthenticated (auth (App_mounted (answering reply401) storedAbc false)) = false /\
  localStorage (browser (App_mounted (answering reply401) storedAbc false)) !! tokenKey = None /\
  loading (auth (App_mounted (answering reply401) storedAbc false)) = false.
Proof.
  apply (mount_rejected_deletes_token
           (answering reply401) storedAbc false "abc"
           (mkResponse false (inr (Js.Object [("error", Js.String "Invalid token")]))));
    reflexivity.
Defined.

(** C3. A mount with no stored token ends with [loading = false] and
    [isAuthenticated = false]; no request is sent, and the mount is over
    before any network answer could matter. *)
Theorem mount_without_token fetch storage cls :
  storage !! tokenKey = None ->
  loading (auth (App_mounted fetch storage cls)) = false /\
  isAuthenticated (auth (App_mounted fetch storage cls)) = false /\
  network (browser (App_mounted fetch storage cls)) = [] /\
  App_mounted fetch storage cls = App_mount storage cls.
Proof.
  intros Hs. unfold App_mounted.
  destruct (App_mount_cases storage cls) as [_ Hp Ha Hn|token Hs']; [|congruence].
  rewrite settle_NotPending by done. by rewrite Ha, Hn.
Qed.

Lemma mount_without_token_witness :
  loading (auth (App_mounted (answering reply200) ∅ false)) = false /\
  isAuthenticated (auth (App_mounted (answering reply200) ∅ false)) = false /\
  network (browser (App_mounted (answering reply200) ∅ false)) = [] /\
  App_mounted (answering reply200) ∅ false = App_mount ∅ false.
Proof. apply (mount_without_token (answering reply200) ∅ false). reflexivity. Defined.

(** C5. A mount with a stored token whose verification fails in
    transport or in parsing leaves the stored token as it was, logs the
    failure, stays unauthenticated and calls [setLoading(false)] exactly
    once. *)
Theorem mount_failed_verification fetch storage cls token s error :
  storage !! tokenKey = Some token ->
  replies (App_mounted fetch storage cls) = [s] ->
  failure s = Some error ->
  localStorage (browser (App_mounted fetch storage cls)) !! tokenKey = Some token /\
  console (browser (App_mounted fetch storage cls)) = [("Auth check failed:", error)] /\
  auth (App_mounted fetch storage cls) = mkAuth false Js.Null false /\
  timesSetLoading false (calls (App_mounted fetch storage cls)) = 1.
Proof.
  intros Hs Hr Hfail.
  destruct (App_mounted_replied _ _ _ _ Hr) as (w & token' & Hcase & Hp & Hs' & ->).
  assert (token' = token) as -> by congruence.
  destruct Hcase as [? Hp'|? ? ? _ Ha Hn Hc Ht Hl]; [congruence|].
  unfold getItem in Ht.
  assert (forall error',
    let w' := finallyBlock (catchBlock error' (netLog (Replied s) w)) in
    localStorage (browser w') !! tokenKey = Some token /\
    console (browser w') = [("Auth check failed:", error')] /\
    auth w' = mkAuth false Js.Null false /\
    timesSetLoading false (calls w') = 1) as Hcaught.
  { intros error'; simpl. rewrite Ht, Hc, Ha, timesSetLoading_app, Hl.
    repeat split. congruence. }
  destruct s as [response|error0]; simpl in Hfail.
  - destruct (ok response); [|discriminate].
    destruct (json response) as [error0|]; [|discriminate].
    injection Hfail as ->. apply Hcaught.
  - injection Hfail as ->. apply Hcaught.
Qed.

Lemma mount_failed_verification_witness :
  localStorage (browser (App_mounted (answering offline) storedAbc false)) !! tokenKey
    = Some "abc" /\
  console (browser (App_mounted (answering offline) storedAbc false))
    = [("Auth check failed:", Js.mkError "TypeError" "Failed to fetch")] /\
  auth (App_mounted (answering offline) storedAbc false) = mkAuth false Js.Null false /\
  timesSetLoading false (calls (App_mounted (answering offline) storedAbc false)) = 1.
Proof.
  apply (mount_failed_verification (answering offline) storedAbc false "abc" offline);
    reflexivity.
Defined.

(** The same when it is the body that does not parse. *)
Example mount_garbled_body :
  getItem tokenKey (App_mounted (answering replyGarbled) storedAbc false) = Some "abc" /\
  console (browser (App_mounted (answering replyGarbled) storedAbc false))
    = [("Auth check failed:", Js.mkError "SyntaxError" "Unexpected token < in JSON")] /\
  auth (App_mounted (answering replyGarbled) storedAbc false) = mkAuth false Js.Null false.
Proof. repeat split; reflexivity. Qed.

(** ** Route guard *)

(** C4. Inside the provider the guard shows the waiting indicator while
    [loading]; once [loading] is false it renders its children when
    authenticated and otherwise redirects to "/auth", replacing the
    history entry. *)
Theorem ProtectedRoute_decision {Node : Type} (w : World) (children : Node) :
  (loading (auth w) = true ->
   ProtectedRoute (AuthProvider_value w) children = inr Spinner) /\
  (loading (auth w) = false -> isAuthenticated (auth w) = true ->
   ProtectedRoute (AuthProvider_value w) children = inr (Children children)) /\
  (loading (auth w) = false -> isAuthenticated (auth w) = false ->
   ProtectedRoute (AuthProvider_value w) children = inr (Navigate "/auth" true)).
Proof.
  unfold ProtectedRoute, AuthProvider_value, useAuth.
  destruct (auth w) as [authenticated u [|]]; simpl;
    repeat split; intros; subst; congruence.
Qed.

Lemma ProtectedRoute_decision_witness :
  ProtectedRoute (AuthProvider_value (App_mount storedAbc false)) "Profile"
    = inr Spinner /\
  ProtectedRoute (AuthProvider_value (App_mounted (answering reply200) storedAbc false)) "Profile"
    = inr (Children "Profile") /\
  ProtectedRoute (AuthProvider_value (App_mounted (answering reply401) storedAbc false)) "Profile"
    = inr (Navigate "/auth" true).
Proof.
  split; [|split].
  - apply (proj1 (ProtectedRoute_decision (App_mount storedAbc false) "Profile")).
    reflexivity.
  - apply (proj1 (proj2 (ProtectedRoute_decision
             (App_mounted (answering reply200) storedAbc false) "Profile")));
      reflexivity.
  - apply (proj2 (proj2 (ProtectedRoute_decision
             (App_mounted (answering reply401) storedAbc false) "Profile")));
      reflexivity.
Defined.

(** Outside a provider the hook throws. *)
Example ProtectedRoute_without_provider :
  ProtectedRoute None "Profile"
    = inl (Js.mkError "Error" "useAuth must be used within an AuthProvider").
Proof. reflexivity. Qed.

(** ** Session invariants *)

(** Unauthenticated states carry no user: every path that clears
    [isAuthenticated] clears [user], and only paths that set it set a user. *)
Lemma unauthenticated_user_null w :
  reachable anyEvent w -> isAuthenticated (auth w) = false -> user (auth w) = Js.Null.
Proof.
  induction 1 as [storage cls|w e w' Hreach IH _ Hstep].
  - destruct (App_mount_cases storage cls) as [_ _ Ha|token _ _ _ Ha]; by rewrite Ha.
  - destruct e as [token userData| | |s|]; simpl in Hstep.
    + injection Hstep as <-. discriminate.
    + by injection Hstep as <-.
    + injection Hstep as <-. by rewrite (frame_auth _ _ (toggleTheme_frame w)).
    + destruct (phase w); try discriminate. injection Hstep as <-.
      unfold checkAuthStatus_fetched.
      destruct s as [response|error]; [destruct (ok response)|]; exact IH.
    + destruct (phase w) as [| |response]; try discriminate. injection Hstep as <-.
      destruct (json response); [exact IH | discriminate].
Qed.

Lemma userInvariant_reachable w : reachable suppliesUser w -> userInvariant w.
Proof.
  induction 1 as [storage cls|w e w' Hreach [IHa IHp] Hallowed Hstep].
  - split.
    + destruct (App_mount_cases storage cls) as [_ _ Ha|token _ _ _ Ha];
        by rewrite Ha.
    + intros response body Hp.
      destruct (App_mount_cases storage cls) as [_ Hp'|token _ _ Hp']; congruence.
  - destruct e as [token userData| | |s|]; simpl in Hstep, Hallowed.
    + injection Hstep as <-. split; [intros _; exact Hallowed | exact IHp].
    + injection Hstep as <-. split; [discriminate | exact IHp].
    + injection Hstep as <-. destruct (toggleTheme_frame w) as [Ha Hp _ _ _ _].
      split; [by rewrite Ha | intros ? ?; rewrite Hp; apply IHp].
    + destruct (phase w) eqn:Hphase; try discriminate. injection Hstep as <-.
      unfold checkAuthStatus_fetched.
      destruct s as [response|error].
      * destruct (ok response); (split; [exact IHa|]);
          intros response' body; simpl; [|discriminate].
        intros [= <-] Hjson. by rewrite Hjson in Hallowed.
      * split; [exact IHa | discriminate].
    + destruct (phase w) as [| |response] eqn:Hphase; try discriminate.
      injection Hstep as <-.
      destruct (json response) as [error|body] eqn:Hjson.
      * split; [exact IHa | discriminate].
      * split; [intros _; by apply (IHp response) | discriminate].
Qed.

(** C6, relative to the records supplied. In every state reached from a
    mount by verification replies, [login], [logout] and theme toggles in
    which each user record handed to the component is present,
    [isAuthenticated = true] implies that [user] is present. *)
Theorem authenticated_user_present w :
  reachable suppliesUser w ->
  isAuthenticated (auth w) = true ->
  Js.present (user (auth w)) = true.
Proof. intros Hreach. apply (userInvariant_reachable w Hreach). Qed.

Lemma authenticated_user_present_witness :
  Js.present (user (auth (App_mounted (answering reply200) storedAbc false))) = true.
Proof.
  apply (authenticated_user_present (App_mounted (answering reply200) storedAbc false));
    [|reflexivity].
  apply (reach_step _ (checkAuthStatus_fetched reply200 (App_mount storedAbc false))
           JsonSettles); [|reflexivity|reflexivity].
  apply (reach_step _ (App_mount storedAbc false) (FetchSettles reply200));
    [apply reach_mount|reflexivity|reflexivity].
Defined.

(** C6 does not hold of every reachable state: [login("abc", null)] right
    after a mount on an empty store leaves [isAuthenticated = true] with
    [user = null], since [login] stores its argument unchecked. *)
Lemma authenticated_user_may_be_null :
  ~ (forall w, reachable anyEvent w ->
               isAuthenticated (auth w) = true -> Js.present (user (auth w)) = true).
Proof.
  intros Hclaim.
  assert (reachable anyEvent (login "abc" Js.Null (App_mount ∅ false))) as Hreach.
  { apply (reach_step _ (App_mount ∅ false) (Login "abc" Js.Null));
      [apply reach_mount | reflexivity | reflexivity]. }
  specialize (Hclaim _ Hreach eq_refl). discriminate Hclaim.
Qed.

(** So does a verification answered with status 200 and the body [null]. *)
Example verified_null_body :
  auth (App_mounted (answering (Js.Fulfilled (mkResponse true (inr Js.Null)))) storedAbc false)
    = mkAuth true Js.Null false.
Proof. reflexivity. Qed.

(** C7. [logout()] in a reachable state that is unauthenticated with no
    stored token changes neither the session state nor the browser: the
    state stays unauthenticated, without user, without token. *)
Theorem logout_when_logged_out w :
  reachable anyEvent w ->
  isAuthenticated (auth w) = false ->
  getItem tokenKey w = None ->
  auth (logout w) = auth w /\
  browser (logout w) = browser w /\
  isAuthenticated (auth (logout w)) = false /\
  user (auth (logout w)) = Js.Null /\
  getItem tokenKey (logout w) = None.
Proof.
  intros Hreach Hauth Htoken.
  pose proof (unauthenticated_user_null w Hreach Hauth) as Huser.
  assert (browser (logout w) = browser w) as Hb.
  { unfold logout, getItem in *. simpl.
    destruct (browser w) as [store cls log net]; simpl in *.
    by rewrite delete_id. }
  repeat split.
  - unfold logout; simpl. revert Hauth Huser.
    destruct (auth w); simpl. by intros -> ->.
  - exact Hb.
  - unfold getItem. by rewrite Hb.
Qed.

Lemma logout_when_logged_out_witness :
  auth (logout (App_mount ∅ false)) = auth (App_mount ∅ false) /\
  browser (logout (App_mount ∅ false)) = browser (App_mount ∅ false) /\
  isAuthenticated (auth (logout (App_mount ∅ false))) = false /\
  user (auth (logout (App_mount ∅ false))) = Js.Null /\
  getItem tokenKey (logout (App_mount ∅ false)) = None.
Proof.
  apply (logout_when_logged_out (App_mount ∅ false));
    [apply reach_mount|reflexivity|reflexivity].
Defined.

(** ** Theme *)

(** A toggle flips the flag and, because the flag changed, the second
    effect writes it out. *)
Lemma toggleTheme_eq w :
  toggleTheme w = themeSyncEffect (negb (isDark w)) (setIsDark (negb (isDark w)) w).
Proof.
  unfold toggleTheme, rerenderTheme. simpl.
  by destruct (isDark w).
Qed.

Lemma isDark_toggleTheme w : isDark (toggleTheme w) = negb (isDark w).
Proof. by rewrite toggleTheme_eq. Qed.

Lemma toggleTheme_persisted w :
  getItem themeKey (toggleTheme w) = Some (themeString (isDark (toggleTheme w))) /\
  darkClass (browser (toggleTheme w)) = isDark (toggleTheme w).
Proof.
  rewrite toggleTheme_eq. unfold themeSyncEffect.
  rewrite getItem_setItem_eq. by destruct (isDark w).
Qed.

(** C8. Two toggles bring [isDark] back to where it was, and after each
    of the two the stored theme string is the encoding of [isDark]. *)
Theorem toggleTheme_twice w :
  isDark (toggleTheme (toggleTheme w)) = isDark w /\
  getItem themeKey (toggleTheme w) = Some (themeString (isDark (toggleTheme w))) /\
  getItem themeKey (toggleTheme (toggleTheme w)) =
    Some (themeString (isDark (toggleTheme (toggleTheme w)))).
Proof.
  split; [|split].
  - rewrite !isDark_toggleTheme. apply negb_involutive.
  - apply toggleTheme_persisted.
  - apply toggleTheme_persisted.
Qed.

(** The flag after the mount, by the saved string. *)
Lemma isDark_App_mount storage cls :
  isDark (App_mount storage cls) = negb (Js.strictEq (storage !! themeKey) "light").
Proof.
  unfold App_mount, ThemeProvider_mount, themeLoadEffect, rerenderTheme.
  set (w := checkAuthStatus_start (pageLoad storage cls)).
  assert (getItem themeKey w = storage !! themeKey /\ isDark w = true) as [-> Hdark].
  { unfold w, checkAuthStatus_start. repeat case_match; by split. }
  destruct (Js.strictEq (storage !! themeKey) "light"); [reflexivity|].
  destruct (Js.strictEq (storage !! themeKey) "dark"); simpl; rewrite ?Hdark;
    first [reflexivity | exact Hdark].
Qed.

(** C9. Mounting with "light" saved gives [isDark = false], with "dark"
    saved gives [isDark = true], and with anything else saved, or with
    nothing, keeps the default [true]; the mount is a total function, so
    no value of the store makes it fail. *)
Theorem theme_initialization storage cls :
  (storage !! themeKey = Some "light" -> isDark (App_mount storage cls) = false) /\
  (storage !! themeKey = Some "dark" -> isDark (App_mount storage cls) = true) /\
  (storage !! themeKey <> Some "light" -> storage !! themeKey <> Some "dark" ->
   isDark (App_mount storage cls) = true).
Proof.
  rewrite isDark_App_mount.
  split; [|split].
  - by intros ->.
  - by intros ->.
  - intros Hlight _. destruct (storage !! themeKey) as [saved|]; [|reflexivity].
    simpl. destruct (String.eqb_spec saved "light") as [->|]; [|reflexivity].
    by destruct Hlight.
Qed.

Lemma theme_initialization_witness :
  isDark (App_mount {[ themeKey := "light" ]} true) = false /\
  isDark (App_mount {[ themeKey := "dark" ]} false) = true /\
  isDark (App_mount {[ themeKey := "Light" ]} false) = true /\
  isDark (App_mount ∅ false) = true.
Proof.
  split; [|split; [|split]].
  - apply (proj1 (theme_initialization {[ themeKey := "light" ]} true)). reflexivity.
  - apply (proj1 (proj2 (theme_initialization {[ themeKey := "dark" ]} false))).
    reflexivity.
  - apply (proj2 (proj2 (theme_initialization {[ themeKey := "Light" ]} false)));
      discriminate.
  - apply (proj2 (proj2 (theme_initialization ∅ false))); discriminate.
Defined.

(** ** Theme and session do not interfere *)

(** C10. [toggleTheme()] leaves [isAuthenticated], [user], [loading] and
    the stored token as they were; [login()] and [logout()] leave [isDark]
    and the stored theme as they were. *)
Theorem theme_session_independent w token userData :
  (auth (toggleTheme w) = auth w /\
   getItem tokenKey (toggleTheme w) = getItem tokenKey w) /\
  (isDark (login token userData w) = isDark w /\
   getItem themeKey (login token userData w) = getItem themeKey w) /\
  (isDark (logout w) = isDark w /\
   getItem themeKey (logout w) = getItem themeKey w).
Proof.
  split; [|split].
  - destruct (toggleTheme_frame w) as [Ha _ _ _ Ht _]. by split.
  - split; [reflexivity|].
    apply (getItem_setItem_ne tokenKey themeKey token w tokenKey_ne_themeKey).
  - split; [reflexivity|].
    apply (getItem_removeItem_ne tokenKey themeKey w tokenKey_ne_themeKey).
Qed.

(** ** Scenarios *)

(** Token "abc", verification answered 200 with a user: authenticated,
    and "/profile" renders the protected content. *)
Example scenario_verified :
  let w := App_mounted (answering reply200) storedAbc false in
  auth w = mkAuth true userAl false /\
  requests w = [mkRequest "/api/auth/verify" "Bearer abc"] /\
  ProtectedRoute (AuthProvider_value w) "Profile" = inr (Children "Profile").
Proof. repeat split; reflexivity. Qed.

(** Token "abc", verification answered 401: unauthenticated, the token
    key gone, and "/profile" redirects to "/auth". *)
Example scenario_rejected :
  let w := App_mounted (answering reply401) storedAbc false in
  isAuthenticated (auth w) = false /\
  getItem tokenKey w = None /\
  ProtectedRoute (AuthProvider_value w) "Profile" = inr (Navigate "/auth" true).
Proof. repeat split; reflexivity. Qed.

(** No token: nothing sent, [loading] cleared at once. *)
Example scenario_no_token :
  let w := App_mount ∅ false in
  requests w = [] /\ loading (auth w) = false /\ phase w = NotPending.
Proof. repeat split; reflexivity. Qed.

(** A [login] while the verification is in flight is not protected from
    its reply: a 401 for the old token deletes the new one and leaves the
    session authenticated. *)
Example login_during_verification :
  let w := checkAuthStatus_fetched reply401
             (login "new" userAl (App_mount storedAbc false)) in
  isAuthenticated (auth w) = true /\ getItem tokenKey w = None.
Proof. repeat split; reflexivity. Qed.

(** * Further properties of the mount *)

Lemma timesSetLoading_snoc v cs c :
  timesSetLoading v (cs ++ [c]) =
    timesSetLoading v cs +
    match c with
    | SetLoading b => if Bool.eqb b v then 1 else 0
    | _ => 0
    end.
Proof.
  rewrite timesSetLoading_app. f_equal.
  unfold timesSetLoading. destruct c as [| |b|]; simpl; try reflexivity.
  by destruct (Bool.eqb b v).
Qed.

(** How the mount ends: without a request, or on the network's answer to
    the one request. *)
Lemma App_mounted_outcome fetch storage cls :
  (Js.truthy (storage !! tokenKey) = false /\
   App_mounted fetch storage cls = App_mount storage cls /\
   mountCase storage (App_mount storage cls) /\
   phase (App_mount storage cls) = NotPending)
  \/
  (exists token w,
     storage !! tokenKey = Some token /\ Js.truthy (Some token) = true /\
     w = netLog (Replied (fetch (verifyRequest token))) (App_mount storage cls) /\
     phase (App_mount storage cls) = AwaitingFetch (verifyRequest token) /\
     auth w = mkAuth false Js.Null true /\
     network (browser w) =
       [Sent (verifyRequest token); Replied (fetch (verifyRequest token))] /\
     console (browser w) = [] /\
     getItem tokenKey w = Some token /\
     App_mounted fetch storage cls =
       match fetch (verifyRequest token) with
       | Js.Rejected error => finallyBlock (catchBlock error w)
       | Js.Fulfilled response =>
           if ok response then
             checkAuthStatus_parsed (json response) (withPhase (AwaitingJson response) w)
           else finallyBlock (removeItem tokenKey w)
       end).
Proof.
  pose proof (App_mount_cases storage cls) as Hcase.
  destruct (App_mount_cases storage cls)
    as [Hf Hp Ha Hn Hc Ht Hl|token Hs Htr Hp Ha Hn Hc Ht Hl].
  - left. repeat split; try assumption.
    unfold App_mounted. by apply settle_NotPending.
  - right. exists token, (netLog (Replied (fetch (verifyRequest token))) (App_mount storage cls)).
    repeat split; try assumption.
    + simpl. by rewrite Hn.
    + unfold App_mounted. by rewrite (settle_AwaitingFetch _ _ _ Hp).
Qed.

(** When the pending verification has settled nothing is suspended. *)
Lemma settle_phase fetch w : phase (settle fetch w) = NotPending.
Proof.
  unfold settle, checkAuthStatus_fetched.
  destruct (phase w) as [|req|response] eqn:Hp.
  - exact Hp.
  - destruct (fetch req) as [response|error]; [|reflexivity].
    destruct (ok response); [|reflexivity].
    simpl. by destruct (json response).
  - by destruct (json response).
Qed.

(** Settling is a run of the events the network causes. *)
Lemma settle_reachable allowed fetch w :
  (forall s, allowed (FetchSettles s) = true) -> allowed JsonSettles = true ->
  reachable allowed w -> reachable allowed (settle fetch w).
Proof.
  intros Hfetch Hjson Hreach. unfold settle.
  destruct (phase w) as [|req|response] eqn:Hp.
  - exact Hreach.
  - assert (reachable allowed (checkAuthStatus_fetched (fetch req) w)) as Hreach'.
    { apply (reach_step _ w (FetchSettles (fetch req))); [done|apply Hfetch|].
      simpl. by rewrite Hp. }
    destruct (phase (checkAuthStatus_fetched (fetch req) w)) as [| |response] eqn:Hp';
      try exact Hreach'.
    apply (reach_step _ _ JsonSettles _ Hreach' Hjson). simpl. by rewrite Hp'.
  - apply (reach_step _ w JsonSettles _ Hreach Hjson). simpl. by rewrite Hp.
Qed.

Lemma App_mounted_reachable fetch storage cls :
  reachable anyEvent (App_mounted fetch storage cls).
Proof. apply settle_reachable; try done. apply reach_mount. Qed.

Lemma loadingTracksPhase_start storage cls :
  loadingTracksPhase (checkAuthStatus_start (pageLoad storage cls)).
Proof.
  unfold checkAuthStatus_start, loadingTracksPhase.
  destruct (getItem tokenKey (pageLoad storage cls)) as [token|];
    [destruct (Js.truthy (Some token))|]; simpl; repeat split; done.
Qed.

Lemma loadingTracksPhase_themeFrame w w' :
  themeFrame w w' -> loadingTracksPhase w -> loadingTracksPhase w'.
Proof.
  intros [Ha Hp _ _ _ Hl] (Hiff & Htrue & Hfalse).
  unfold loadingTracksPhase. by rewrite Ha, Hp, !Hl.
Qed.

(** The [finally] block ends a suspended verification. *)
Lemma loadingTracksPhase_finally w w' :
  loadingTracksPhase w -> phase w <> NotPending ->
  (forall v, timesSetLoading v (calls w') = timesSetLoading v (calls w)) ->
  loadingTracksPhase (finallyBlock w').
Proof.
  intros (Hiff & Htrue & Hfalse) Hp Hl.
  apply Hiff in Hp. rewrite Hp in Hfalse.
  unfold loadingTracksPhase, finallyBlock; simpl.
  rewrite !timesSetLoading_snoc, !Hl, Htrue, Hfalse. simpl.
  repeat split; try done.
Qed.

Lemma loadingTracksPhase_reachable w : reachable anyEvent w -> loadingTracksPhase w.
Proof.
  induction 1 as [storage cls|w e w' Hreach IH _ Hstep].
  - eapply loadingTracksPhase_themeFrame;
      [apply ThemeProvider_mount_frame | apply loadingTracksPhase_start].
  - destruct e as [token userData| | |s|]; simpl in Hstep.
    + injection Hstep as <-. destruct IH as (Hiff & Htrue & Hfalse).
      unfold loadingTracksPhase, login; simpl.
      by rewrite !timesSetLoading_snoc, !Nat.add_0_r.
    + injection Hstep as <-. destruct IH as (Hiff & Htrue & Hfalse).
      unfold loadingTracksPhase, logout; simpl.
      by rewrite !timesSetLoading_snoc, !Nat.add_0_r.
    + injection Hstep as <-.
      exact (loadingTracksPhase_themeFrame w _ (toggleTheme_frame w) IH).
    + destruct (phase w) as [|req|] eqn:Hp; try discriminate. injection Hstep as <-.
      assert (phase w <> NotPending) as Hpending by congruence.
      unfold checkAuthStatus_fetched.
      destruct s as [response|error]; [destruct (ok response)|].
      * destruct IH as (Hiff & Htrue & Hfalse).
        unfold loadingTracksPhase; simpl. repeat split; try done.
        intros _. by apply Hiff.
      * by apply (loadingTracksPhase_finally w).
      * by apply (loadingTracksPhase_finally w).
    + destruct (phase w) as [| |response] eqn:Hp; try discriminate.
      injection Hstep as <-.
      assert (phase w <> NotPending) as Hpending by congruence.
      unfold checkAuthStatus_parsed. destruct (json response) as [error|body].
      * by apply (loadingTracksPhase_finally w).
      * apply (loadingTracksPhase_finally w); try done.
        intros v; simpl. by rewrite !timesSetLoading_snoc, !Nat.add_0_r.
Qed.

(** X1. Whatever the store holds and whatever the network answers, the
    mount ends with [loading = false] and nothing suspended, having called
    [setLoading(false)] exactly once and [setLoading(true)] never. *)
Theorem mount_always_clears_loading fetch storage cls :
  loading (auth (App_mounted fetch storage cls)) = false /\
  phase (App_mounted fetch storage cls) = NotPending /\
  timesSetLoading false (calls (App_mounted fetch storage cls)) = 1 /\
  timesSetLoading true (calls (App_mounted fetch storage cls)) = 0.
Proof.
  destruct (loadingTracksPhase_reachable _ (App_mounted_reachable fetch storage cls))
    as (Hiff & Htrue & Hfalse).
  pose proof (settle_phase fetch (App_mount storage cls)) as Hp.
  fold (App_mounted fetch storage cls) in Hp.
  assert (loading (auth (App_mounted fetch storage cls)) = false) as Hl.
  { destruct (loading (auth (App_mounted fetch storage cls))); [|done].
    by destruct (proj1 Hiff eq_refl). }
  rewrite Hl in Hfalse. done.
Qed.

(** Only [checkAuthStatus_start] sends. *)
Lemma requests_netLog_Replied s w : requests (netLog (Replied s) w) = requests w.
Proof. unfold requests; simpl. rewrite omap_app; simpl. apply app_nil_r. Qed.

Lemma requests_fetched s w : requests (checkAuthStatus_fetched s w) = requests w.
Proof.
  unfold checkAuthStatus_fetched.
  destruct s as [response|error]; [destruct (ok response)|];
    apply requests_netLog_Replied.
Qed.

Lemma requests_parsed r w : requests (checkAuthStatus_parsed r w) = requests w.
Proof. by destruct r. Qed.

Lemma requests_themeFrame w w' : themeFrame w w' -> requests w' = requests w.
Proof. intros [_ _ Hn _ _ _]. unfold requests. by rewrite Hn. Qed.

Lemma settle_requests fetch w : requests (settle fetch w) = requests w.
Proof.
  unfold settle. destruct (phase w) as [|req|response]; [done| |apply requests_parsed].
  destruct (phase (checkAuthStatus_fetched (fetch req) w));
    rewrite ?requests_parsed; apply requests_fetched.
Qed.

(** X2. The mount sends one request, to "/api/auth/verify" with the
    header "Bearer " followed by the stored token, when the stored token
    is a non-empty string, and sends nothing otherwise. *)
Theorem mount_request fetch storage cls :
  requests (App_mounted fetch storage cls) =
    match storage !! tokenKey with
    | Some token =>
        if Js.truthy (Some token)
        then [mkRequest "/api/auth/verify" ("Bearer " ++ token)]
        else []
    | None => []
    end.
Proof.
  unfold App_mounted, App_mount.
  rewrite settle_requests, (requests_themeFrame _ _ (ThemeProvider_mount_frame _)).
  unfold checkAuthStatus_start.
  change (getItem tokenKey (pageLoad storage cls)) with (storage !! tokenKey).
  destruct (storage !! tokenKey) as [token|]; [|reflexivity].
  by destruct (Js.truthy (Some token)).
Qed.

(** X3. The mount ends authenticated exactly when it received a reply
    with a success status whose body parsed. *)
Theorem mount_authenticated_iff fetch storage cls :
  isAuthenticated (auth (App_mounted fetch storage cls)) = true <->
  exists response body,
    replies (App_mounted fetch storage cls) = [Js.Fulfilled response] /\
    ok response = true /\ json response = inr body.
Proof.
  rewrite App_mounted_replies.
  destruct (App_mounted_outcome fetch storage cls)
    as [(Hfalsy & -> & Hcase & _)
       |(token & w & Hs & Htr & _ & _ & Ha & _ & _ & _ & ->)].
  - assert (isAuthenticated (auth (App_mount storage cls)) = false) as ->.
    { destruct Hcase as [_ _ Ha|? Hs' Htr'];
        [by rewrite Ha | by rewrite Hs', Htr' in Hfalsy]. }
    split; [discriminate|]. intros (response & body & Hr & _).
    destruct (storage !! tokenKey); [by rewrite Hfalsy in Hr | discriminate].
  - rewrite Hs, Htr.
    destruct (fetch (verifyRequest token)) as [response|error].
    + destruct (ok response) eqn:Hok.
      * destruct (json response) as [error|body] eqn:Hjson; simpl; rewrite ?Ha; simpl.
        -- split; [discriminate|]. intros (r & b & [= <-] & _ & Hj). congruence.
        -- split; [intros _; by exists response, body | done].
      * simpl; rewrite Ha; simpl.
        split; [discriminate|]. intros (r & b & [= <-] & Hok' & _). congruence.
    + simpl; rewrite Ha; simpl. split; [discriminate|].
      intros (r & b & Hr & _). discriminate.
Qed.

Lemma mount_authenticated_iff_witness :
  isAuthenticated (auth (App_mounted (answering reply200) storedAbc false)) = true.
Proof.
  apply (proj2 (mount_authenticated_iff (answering reply200) storedAbc false)).
  exists (mkResponse true (inr userAl)), userAl. repeat split; reflexivity.
Defined.

(** X4. After the mount the token key holds what it held before, except
    after a reply with a non-success status, which deletes it; the mount
    never writes a token. *)
Theorem mount_token_key fetch storage cls :
  getItem tokenKey (App_mounted fetch storage cls) =
    match replies (App_mounted fetch storage cls) with
    | [Js.Fulfilled response] => if ok response then storage !! tokenKey else None
    | _ => storage !! tokenKey
    end.
Proof.
  rewrite App_mounted_replies.
  destruct (App_mounted_outcome fetch storage cls)
    as [(Hfalsy & -> & Hcase & _)
       |(token & w & Hs & Htr & _ & _ & _ & _ & _ & Ht & ->)].
  - destruct Hcase as [_ _ _ _ _ Ht|? Hs' Htr'];
      [|by rewrite Hs', Htr' in Hfalsy].
    rewrite Ht. destruct (storage !! tokenKey); [by rewrite Hfalsy | done].
  - rewrite Hs, Htr. unfold getItem in *.
    destruct (fetch (verifyRequest token)) as [response|error]; [|exact Ht].
    destruct (ok response); [by destruct (json response)|].
    apply (getItem_removeItem_eq tokenKey).
Qed.

(** X5. The mount writes to the console exactly when the verification
    failed in transport or in parsing, and then one entry with that
    error; a rejected token is not reported. *)
Theorem mount_console fetch storage cls :
  console (browser (App_mounted fetch storage cls)) =
    match replies (App_mounted fetch storage cls) with
    | [s] =>
        match failure s with
        | Some error => [("Auth check failed:", error)]
        | None => []
        end
    | _ => []
    end.
Proof.
  rewrite App_mounted_replies.
  destruct (App_mounted_outcome fetch storage cls)
    as [(Hfalsy & -> & Hcase & _)
       |(token & w & Hs & Htr & _ & _ & _ & _ & Hc & _ & ->)].
  - destruct Hcase as [_ _ _ _ Hc|? Hs' Htr'];
      [|by rewrite Hs', Htr' in Hfalsy].
    rewrite Hc. destruct (storage !! tokenKey); [by rewrite Hfalsy | done].
  - rewrite Hs, Htr.
    destruct (fetch (verifyRequest token)) as [response|error]; simpl.
    + destruct (ok response); [destruct (json response)|]; simpl; by rewrite Hc.
    + by rewrite Hc.
Qed.

Lemma empty_token_sends_nothing_witness :
  requests (App_mounted (answering reply200) {[ tokenKey := "" ]} false) = [] /\
  auth (App_mounted (answering reply200) {[ tokenKey := "" ]} false)
    = mkAuth false Js.Null false /\
  getItem tokenKey (App_mounted (answering reply200) {[ tokenKey := "" ]} false) = Some "".
Proof.
  apply (empty_token_sends_nothing (answering reply200) {[ tokenKey := "" ]} false).
  reflexivity.
Defined.

(** * Further properties of the session operations *)

Lemma sessionFrame_refl w : sessionFrame w w.
Proof. by split. Qed.

Lemma sessionFrame_trans w1 w2 w3 :
  sessionFrame w1 w2 -> sessionFrame w2 w3 -> sessionFrame w1 w3.
Proof.
  intros [Hd Hc Hk] [Hd' Hc' Hk']. split; try congruence.
  intros key Hne. by rewrite Hk', Hk.
Qed.

Lemma finallyBlock_sessionFrame w : sessionFrame w (finallyBlock w).
Proof. by split. Qed.

Lemma login_sessionFrame token userData w : sessionFrame w (login token userData w).
Proof.
  split; try reflexivity. intros key Hne.
  apply (getItem_setItem_ne tokenKey key token w). congruence.
Qed.

Lemma logout_sessionFrame w : sessionFrame w (logout w).
Proof.
  split; try reflexivity. intros key Hne.
  apply (getItem_removeItem_ne tokenKey key w). congruence.
Qed.

Lemma start_sessionFrame w : sessionFrame w (checkAuthStatus_start w).
Proof.
  unfold checkAuthStatus_start.
  destruct (getItem tokenKey w) as [token|]; [destruct (Js.truthy (Some token))|];
    by split.
Qed.

Lemma fetched_sessionFrame s w : sessionFrame w (checkAuthStatus_fetched s w).
Proof.
  unfold checkAuthStatus_fetched.
  destruct s as [response|error]; [destruct (ok response)|]; split; try reflexivity.
  intros key Hne. unfold getItem; simpl. apply lookup_delete_ne. congruence.
Qed.

Lemma parsed_sessionFrame r w : sessionFrame w (checkAuthStatus_parsed r w).
Proof. destruct r; by split. Qed.

Lemma settle_sessionFrame fetch w : sessionFrame w (settle fetch w).
Proof.
  unfold settle. destruct (phase w) as [|req|response].
  - apply sessionFrame_refl.
  - destruct (phase (checkAuthStatus_fetched (fetch req) w));
      try apply fetched_sessionFrame.
    eapply sessionFrame_trans; [apply fetched_sessionFrame | apply parsed_sessionFrame].
  - apply parsed_sessionFrame.
Qed.

(** The theme effects write one key. *)
Lemma themeSyncEffect_other_keys rendered w key :
  key <> themeKey -> getItem key (themeSyncEffect rendered w) = getItem key w.
Proof.
  intros Hne. unfold themeSyncEffect.
  rewrite getItem_setItem_ne by congruence. reflexivity.
Qed.

Lemma ThemeProvider_mount_other_keys w key :
  key <> themeKey -> getItem key (ThemeProvider_mount w) = getItem key w.
Proof.
  intros Hne. unfold ThemeProvider_mount, rerenderTheme, themeLoadEffect.
  repeat case_match; rewrite ?themeSyncEffect_other_keys by done; reflexivity.
Qed.

Lemma toggleTheme_other_keys w key :
  key <> themeKey -> getItem key (toggleTheme w) = getItem key w.
Proof.
  intros Hne. rewrite toggleTheme_eq. by rewrite themeSyncEffect_other_keys.
Qed.

(** X7. The mount reads and writes two keys of the store only: every key
    other than the token key and the theme key holds afterwards what it
    held before. *)
Theorem mount_other_keys fetch storage cls key :
  key <> tokenKey -> key <> themeKey ->
  getItem key (App_mounted fetch storage cls) = storage !! key.
Proof.
  intros Htoken Htheme. unfold App_mounted, App_mount.
  rewrite (frame_other_keys _ _ (settle_sessionFrame fetch _) key Htoken).
  rewrite (ThemeProvider_mount_other_keys _ key Htheme).
  apply (frame_other_keys _ _ (start_sessionFrame (pageLoad storage cls)) key Htoken).
Qed.

Lemma mount_other_keys_witness :
  getItem "cart" (App_mounted (answering reply401) {[ "cart" := "3"; tokenKey := "abc" ]} false)
    = Some "3".
Proof.
  rewrite (mount_other_keys (answering reply401)
             {[ "cart" := "3"; tokenKey := "abc" ]} false "cart") by discriminate.
  reflexivity.
Defined.

Lemma requests_App_mount storage cls :
  requests (App_mount storage cls) =
    match storage !! tokenKey with
    | Some token => if Js.truthy (Some token) then [verifyRequest token] else []
    | None => []
    end.
Proof.
  unfold App_mount.
  rewrite (requests_themeFrame _ _ (ThemeProvider_mount_frame _)).
  unfold checkAuthStatus_start.
  change (getItem tokenKey (pageLoad storage cls)) with (storage !! tokenKey).
  destruct (storage !! tokenKey) as [token|]; [|reflexivity].
  by destruct (Js.truthy (Some token)).
Qed.

Lemma truthy_nonempty token : token <> "" -> Js.truthy (Some token) = true.
Proof. by destruct token. Qed.

(** X8. [login] persists the token and nothing of the user record: a
    reload after [login] with a non-empty token starts unauthenticated
    and loading, and sends that token for verification. *)
Theorem login_then_reload w token userData fetch cls :
  token <> "" ->
  auth (App_mount (localStorage (browser (login token userData w))) cls)
    = mkAuth false Js.Null true /\
  requests (App_mounted fetch (localStorage (browser (login token userData w))) cls)
    = [mkRequest "/api/auth/verify" ("Bearer " ++ token)].
Proof.
  intros Hne. apply truthy_nonempty in Hne.
  assert (localStorage (browser (login token userData w)) !! tokenKey = Some token) as Hs.
  { apply (getItem_setItem_eq tokenKey token w). }
  split.
  - destruct (App_mount_cases (localStorage (browser (login token userData w))) cls)
      as [Hfalsy|token' _ _ _ Ha]; [|exact Ha].
    by rewrite Hs, Hne in Hfalsy.
  - unfold App_mounted. by rewrite settle_requests, requests_App_mount, Hs, Hne.
Qed.

Lemma login_then_reload_witness :
  auth (App_mount (localStorage (browser (login "abc" userAl (App_mount ∅ false)))) false)
    = mkAuth false Js.Null true /\
  requests (App_mounted (answering reply200)
              (localStorage (browser (login "abc" userAl (App_mount ∅ false)))) false)
    = [mkRequest "/api/auth/verify" "Bearer abc"].
Proof.
  apply (login_then_reload (App_mount ∅ false) "abc" userAl (answering reply200) false).
  discriminate.
Defined.

(** X9. A reload after [logout] sends nothing and is unauthenticated with
    [loading] cleared as soon as the effects have run, whatever the
    network would answer. *)
Theorem logout_then_reload w fetch cls :
  requests (App_mounted fetch (localStorage (browser (logout w))) cls) = [] /\
  auth (App_mounted fetch (localStorage (browser (logout w))) cls)
    = mkAuth false Js.Null false /\
  App_mounted fetch (localStorage (browser (logout w))) cls
    = App_mount (localStorage (browser (logout w))) cls.
Proof.
  assert (localStorage (browser (logout w)) !! tokenKey = None) as Hs.
  { apply (getItem_removeItem_eq tokenKey w). }
  destruct (App_mounted_outcome fetch (localStorage (browser (logout w))) cls)
    as [(_ & Heq & Hcase & _)|(token & ? & Hs' & _)]; [|congruence].
  rewrite Heq, requests_App_mount, Hs.
  destruct Hcase as [_ _ Ha|? Hs']; [by rewrite Ha | congruence].
Qed.

(** X10. [logout] absorbs what came before it: a second [logout], or a
    [logout] after a [login], leaves the session state and the browser
    exactly as one [logout] does. *)
Theorem logout_absorbs w token userData :
  auth (logout (logout w)) = auth (logout w) /\
  browser (logout (logout w)) = browser (logout w) /\
  auth (logout (login token userData w)) = auth (logout w) /\
  browser (logout (login token userData w)) = browser (logout w).
Proof.
  unfold logout, login; simpl. repeat split.
  - by rewrite delete_delete_eq.
  - by rewrite delete_insert_eq.
Qed.

(** X11. The last [login] wins: after two logins the session state and
    the browser are those of the second alone. *)
Theorem login_overrides w token userData token' userData' :
  auth (login token' userData' (login token userData w)) = auth (login token' userData' w) /\
  browser (login token' userData' (login token userData w))
    = browser (login token' userData' w).
Proof.
  unfold login; simpl. split; [reflexivity|]. by rewrite insert_insert_eq.
Qed.

(** X12. While the verification is pending the guard shows the waiting
    indicator even right after [login] or [logout], since neither touches
    [loading]; otherwise the guard renders its children after [login] and
    redirects after [logout]. *)
Theorem guard_after_login_logout {Node : Type} w token userData (children : Node) :
  ProtectedRoute (AuthProvider_value (login token userData w)) children
    = inr (if loading (auth w) then Spinner else Children children) /\
  ProtectedRoute (AuthProvider_value (logout w)) children
    = inr (if loading (auth w) then Spinner else Navigate "/auth" true).
Proof.
  unfold ProtectedRoute, AuthProvider_value, useAuth, login, logout; simpl.
  by destruct (loading (auth w)).
Qed.

(** * Further properties of what happens after the mount *)

Lemma step_loading e w w' :
  step e w = Some w' -> loading (auth w) = false -> loading (auth w') = false.
Proof.
  intros Hstep Hl. destruct e as [token userData| | |s|]; simpl in Hstep.
  - by injection Hstep as <-.
  - by injection Hstep as <-.
  - injection Hstep as <-. by rewrite (frame_auth _ _ (toggleTheme_frame w)).
  - destruct (phase w); try discriminate. injection Hstep as <-.
    unfold checkAuthStatus_fetched.
    destruct s as [response|error]; [destruct (ok response)|]; done.
  - destruct (phase w) as [| |response]; try discriminate. injection Hstep as <-.
    by destruct (json response).
Qed.

Lemma step_requests e w w' : step e w = Some w' -> requests w' = requests w.
Proof.
  intros Hstep. destruct e as [token userData| | |s|]; simpl in Hstep.
  - by injection Hstep as <-.
  - by injection Hstep as <-.
  - injection Hstep as <-. apply requests_themeFrame, toggleTheme_frame.
  - destruct (phase w); try discriminate. injection Hstep as <-.
    apply requests_fetched.
  - destruct (phase w) as [| |response]; try discriminate. injection Hstep as <-.
    apply requests_parsed.
Qed.

(** X13. [loading] never comes back: once it is false no sequence of
    logins, logouts, theme toggles and network replies makes it true. *)
Theorem loading_never_returns events w w' :
  run events w = Some w' -> loading (auth w) = false -> loading (auth w') = false.
Proof.
  revert w. induction events as [|e events IH]; intros w Hrun Hl; simpl in Hrun.
  - by injection Hrun as <-.
  - destruct (step e w) as [w1|] eqn:Hstep; [|discriminate].
    apply (IH w1 Hrun). by apply (step_loading e w).
Qed.

Lemma loading_never_returns_witness :
  loading (auth (login "abc" userAl (logout (App_mount ∅ false)))) = false.
Proof.
  apply (loading_never_returns [Logout; Login "abc" userAl] (App_mount ∅ false));
    reflexivity.
Defined.

(** X14. Nothing after the mount talks to the network: [login], [logout],
    [toggleTheme] and the resumptions of [checkAuthStatus] send no
    request, so the requests of a run are those of the mount. *)
Theorem events_send_nothing events w w' :
  run events w = Some w' -> requests w' = requests w.
Proof.
  revert w. induction events as [|e events IH]; intros w Hrun; simpl in Hrun.
  - by injection Hrun as <-.
  - destruct (step e w) as [w1|] eqn:Hstep; [|discriminate].
    rewrite (IH w1 Hrun). by apply (step_requests e).
Qed.

Lemma events_send_nothing_witness :
  requests (logout (login "abc" userAl (App_mount ∅ false))) = requests (App_mount ∅ false).
Proof.
  apply (events_send_nothing [Login "abc" userAl; Logout] (App_mount ∅ false)).
  reflexivity.
Defined.

(** X15. In every state reached from a mount, [loading] is true exactly
    while [checkAuthStatus] is suspended at one of its awaits;
    [setLoading(true)] has never been called, and [setLoading(false)] has
    been called once if [loading] is false and not at all otherwise. *)
Theorem reachable_loading_iff_pending w :
  reachable anyEvent w ->
  (loading (auth w) = true <-> phase w <> NotPending) /\
  timesSetLoading true (calls w) = 0 /\
  timesSetLoading false (calls w) = (if loading (auth w) then 0 else 1).
Proof. apply loadingTracksPhase_reachable. Qed.

Lemma reachable_loading_iff_pending_witness :
  (loading (auth (App_mount storedAbc false)) = true
   <-> phase (App_mount storedAbc false) <> NotPending) /\
  timesSetLoading true (calls (App_mount storedAbc false)) = 0 /\
  timesSetLoading false (calls (App_mount storedAbc false))
    = (if loading (auth (App_mount storedAbc false)) then 0 else 1).
Proof. apply (reachable_loading_iff_pending (App_mount storedAbc false)), reach_mount. Defined.

(** X16. A [logout] made while the verification is in flight does not
    stop it: when the reply then comes with a success status and a body,
    the session is authenticated again, with no token in the store. *)
Theorem reply_after_logout w req response body :
  phase w = AwaitingFetch req ->
  ok response = true ->
  json response = inr body ->
  exists w',
    run [Logout; FetchSettles (Js.Fulfilled response); JsonSettles] w = Some w' /\
    auth w' = mkAuth true body false /\
    getItem tokenKey w' = None.
Proof.
  intros Hp Hok Hjson. eexists. split.
  - simpl. rewrite Hp. unfold checkAuthStatus_fetched. rewrite Hok. simpl.
    rewrite Hjson. reflexivity.
  - split; [reflexivity|]. apply (getItem_removeItem_eq tokenKey w).
Qed.

Lemma reply_after_logout_witness :
  exists w',
    run [Logout; FetchSettles reply200; JsonSettles] (App_mount storedAbc false) = Some w' /\
    auth w' = mkAuth true userAl false /\
    getItem tokenKey w' = None.
Proof.
  apply (reply_after_logout (App_mount storedAbc false) (verifyRequest "abc")
           (mkResponse true (inr userAl)) userAl); reflexivity.
Defined.

(** X17. A [login] made while the verification of an older token is in
    flight is not protected from its reply: a non-success status deletes
    the token just stored, while the session stays authenticated as the
    [login] left it. *)
Theorem rejection_after_login w req token userData response :
  phase w = AwaitingFetch req ->
  ok response = false ->
  exists w',
    run [Login token userData; FetchSettles (Js.Fulfilled response)] w = Some w' /\
    auth w' = mkAuth true userData false /\
    getItem tokenKey w' = None.
Proof.
  intros Hp Hok. eexists. split.
  - simpl. rewrite Hp. unfold checkAuthStatus_fetched. rewrite Hok. reflexivity.
  - split; [reflexivity|]. unfold getItem; simpl. apply lookup_delete_eq.
Qed.

Lemma rejection_after_login_witness :
  exists w',
    run [Login "new" userAl; FetchSettles reply401] (App_mount storedAbc false) = Some w' /\
    auth w' = mkAuth true userAl false /\
    getItem tokenKey w' = None.
Proof.
  apply (rejection_after_login (App_mount storedAbc false) (verifyRequest "abc") "new" userAl
           (mkResponse false (inr (Js.Object [("error", Js.String "Invalid token")]))));
    reflexivity.
Defined.

(** * Further properties of the theme *)

Lemma themeSynced_sessionFrame w w' : sessionFrame w w' -> themeSynced w -> themeSynced w'.
Proof.
  intros [Hd Hc Hk] [Hs Hcls]. unfold themeSynced.
  by rewrite Hd, Hc, (Hk themeKey themeKey_ne_tokenKey).
Qed.

Lemma themeSynced_themeSyncEffect w :
  themeSynced (themeSyncEffect (isDark w) w).
Proof. split; [apply getItem_setItem_eq | reflexivity]. Qed.

Lemma themeSynced_ThemeProvider_mount w :
  isDark w = true -> themeSynced (ThemeProvider_mount w).
Proof.
  intros Hdark. unfold ThemeProvider_mount, themeLoadEffect, rerenderTheme.
  destruct (Js.strictEq (getItem themeKey w) "light"); simpl.
  - apply (themeSynced_themeSyncEffect
             (themeSyncEffect true (setIsDark false w))).
  - destruct (Js.strictEq (getItem themeKey w) "dark"); simpl; rewrite ?Hdark; simpl.
    + apply (themeSynced_themeSyncEffect (setIsDark true w)).
    + rewrite <- Hdark at 1. apply themeSynced_themeSyncEffect.
Qed.

Lemma themeSynced_App_mount storage cls : themeSynced (App_mount storage cls).
Proof.
  apply themeSynced_ThemeProvider_mount.
  by rewrite (frame_isDark _ _ (start_sessionFrame (pageLoad storage cls))).
Qed.

Lemma themeSynced_reachable w : reachable anyEvent w -> themeSynced w.
Proof.
  induction 1 as [storage cls|w e w' Hreach IH _ Hstep].
  - apply themeSynced_App_mount.
  - destruct e as [token userData| | |s|]; simpl in Hstep.
    + injection Hstep as <-.
      apply (themeSynced_sessionFrame w); [apply login_sessionFrame | exact IH].
    + injection Hstep as <-.
      apply (themeSynced_sessionFrame w); [apply logout_sessionFrame | exact IH].
    + injection Hstep as <-. apply toggleTheme_persisted.
    + destruct (phase w); try discriminate. injection Hstep as <-.
      apply (themeSynced_sessionFrame w); [apply fetched_sessionFrame | exact IH].
    + destruct (phase w) as [| |response]; try discriminate. injection Hstep as <-.
      apply (themeSynced_sessionFrame w); [apply parsed_sessionFrame | exact IH].
Qed.

(** X18. The mount normalises the stored theme: afterwards the theme key
    holds "light" if it held exactly "light" before and "dark" in every
    other case (absent, "dark", or anything else), and the document
    element carries the class "dark" exactly in the second case. *)
Theorem mount_theme_store storage cls :
  getItem themeKey (App_mount storage cls)
    = Some (if Js.strictEq (storage !! themeKey) "light" then "light" else "dark") /\
  darkClass (browser (App_mount storage cls))
    = negb (Js.strictEq (storage !! themeKey) "light").
Proof.
  destruct (themeSynced_App_mount storage cls) as [-> ->].
  rewrite isDark_App_mount.
  by destruct (Js.strictEq (storage !! themeKey) "light").
Qed.

(** X19. In every state reached from a mount the stored theme string and
    the "dark" class of the document element agree with [isDark]. *)
Theorem reachable_theme_synced w :
  reachable anyEvent w ->
  getItem themeKey w = Some (if isDark w then "dark" else "light") /\
  darkClass (browser w) = isDark w.
Proof. apply themeSynced_reachable. Qed.

Lemma reachable_theme_synced_witness :
  getItem themeKey (toggleTheme (App_mount ∅ false))
    = Some (if isDark (toggleTheme (App_mount ∅ false)) then "dark" else "light") /\
  darkClass (browser (toggleTheme (App_mount ∅ false)))
    = isDark (toggleTheme (App_mount ∅ false)).
Proof.
  apply (reachable_theme_synced (toggleTheme (App_mount ∅ false))).
  apply (reach_step _ (App_mount ∅ false) ToggleTheme);
    [apply reach_mount | reflexivity | reflexivity].
Defined.

(** X20. The theme survives a reload: mounting again on the store that
    any reachable state left behind gives back the [isDark] of that
    state. *)
Theorem theme_survives_reload w cls :
  reachable anyEvent w ->
  isDark (App_mount (localStorage (browser w)) cls) = isDark w.
Proof.
  intros Hreach. destruct (themeSynced_reachable w Hreach) as [Hs _].
  rewrite isDark_App_mount. unfold getItem in Hs. rewrite Hs.
  by destruct (isDark w).
Qed.

Lemma theme_survives_reload_witness :
  isDark (App_mount (localStorage (browser (toggleTheme (App_mount ∅ false)))) true)
    = isDark (toggleTheme (App_mount ∅ false)).
Proof.
  apply (theme_survives_reload (toggleTheme (App_mount ∅ false)) true).
  apply (reach_step _ (App_mount ∅ false) ToggleTheme);
    [apply reach_mount | reflexivity | reflexivity].
Defined.

(** X21. After [n] toggles [isDark] is back at its value when [n] is even
    and is the opposite when [n] is odd. *)
Theorem toggleTheme_iter n w :
  isDark (Nat.iter n toggleTheme w) = if Nat.even n then isDark w else negb (isDark w).
Proof.
  induction n as [|n IH]; [reflexivity|].
  rewrite Nat.iter_succ, isDark_toggleTheme, IH, Nat.even_succ.
  unfold Nat.odd. destruct (Nat.even n); simpl; [reflexivity|apply negb_involutive].
Qed.

(** * Properties of the application shell *)



(** X23. The application shows the profile page in one situation only:
    it has been started, the router matched the profile route, [loading]
    is false and the session is authenticated. *)
Theorem profile_shown_iff w started route :
  (exists className, App w started route = inr (Body className (Children Profile))) <->
  started = true /\ route = ProfileRoute /\
  loading (auth w) = false /\ isAuthenticated (auth w) = true.
Proof.
  unfold App, AppContent, ProtectedRoute, ThemeProvider_value, AuthProvider_value,
    useTheme, useAuth; simpl.
  destruct started; simpl.
  - destruct route; simpl.
    + split; [intros [? [=]] | intros (_ & [=] & _)].
    + destruct (loading (auth w)), (isAuthenticated (auth w)); simpl;
        (split; [intros [? [=]] | intros (_ & _ & ? & ?); discriminate]) ||
        (split; [done | intros _; by eexists]).
    + split; [intros [? [=]] | intros (_ & [=] & _)].
    + split; [intros [? [=]] | intros (_ & [=] & _)].
  - split; [intros [? [=]] | intros ([=] & _)].
Qed.

Lemma profile_shown_iff_witness :
  exists className,
    App (App_mounted (answering reply200) storedAbc false) true ProfileRoute
      = inr (Body className (Children Profile)).
Proof.
  apply (proj2 (profile_shown_iff
                  (App_mounted (answering reply200) storedAbc false) true ProfileRoute)).
  repeat split; reflexivity.
Defined.

(** * Order of theme and session operations *)

(** X24. A theme toggle and a [login] or [logout] can be done in either
    order: the session state, [isDark] and the whole browser state come
    out the same. *)
Theorem toggle_commutes_with_session w token userData :
  (auth (toggleTheme (login token userData w)) = auth (login token userData (toggleTheme w)) /\
   isDark (toggleTheme (login token userData w))
     = isDark (login token userData (toggleTheme w)) /\
   browser (toggleTheme (login token userData w))
     = browser (login token userData (toggleTheme w))) /\
  (auth (toggleTheme (logout w)) = auth (logout (toggleTheme w)) /\
   isDark (toggleTheme (logout w)) = isDark (logout (toggleTheme w)) /\
   browser (toggleTheme (logout w)) = browser (logout (toggleTheme w))).
Proof.
  rewrite !toggleTheme_eq. unfold themeSyncEffect, login, logout; simpl.
  repeat split.
  - f_equal. apply insert_insert_ne, themeKey_ne_tokenKey.
  - f_equal. symmetry. apply delete_insert_ne, tokenKey_ne_themeKey.
Qed.

(** X25. The session the mount ends in depends on the store through the
    token key alone: two stores that agree on it give the same session
    under the same network, whatever else they hold and whatever class
    the document element carries. *)
Theorem mount_session_depends_on_token fetch storage storage' cls cls' :
  storage !! tokenKey = storage' !! tokenKey ->
  auth (App_mounted fetch storage cls) = auth (App_mounted fetch storage' cls').
Proof.
  intros Heq. rewrite !App_mounted_auth.
  unfold checkAuthStatus, checkAuthStatus_start.
  change (getItem tokenKey (pageLoad storage cls)) with (storage !! tokenKey).
  change (getItem tokenKey (pageLoad storage' cls')) with (storage' !! tokenKey).
  rewrite Heq. destruct (storage' !! tokenKey) as [token|]; [|reflexivity].
  destruct (Js.truthy (Some token)); [|reflexivity].
  unfold settle, checkAuthStatus_fetched; simpl.
  destruct (fetch (verifyRequest token)) as [response|error]; [|reflexivity].
  destruct (ok response); [|reflexivity].
  simpl. by destruct (json response).
Qed.

Lemma mount_session_depends_on_token_witness :
  auth (App_mounted (answering reply200) storedAbc false)
    = auth (App_mounted (answering reply200) {[ tokenKey := "abc"; themeKey := "light" ]} true).
Proof.
  apply (mount_session_depends_on_token (answering reply200) storedAbc
           {[ tokenKey := "abc"; themeKey := "light" ]} false true).
  reflexivity.
Defined.
